(** * Monte Carlo pricing of a European call: [mcBScall_loop] and [mcBScall_vect]

    Shallow embedding of the two pricing functions of
    [docs/Performance_gottagofaster.ipynb] as the plain cells define them
    (cell 1, lines 46-58, and cell 3, lines 102-109) and of the two cells
    that call them (cells 2 and 4).

    Reading of the Python values:
    - a Python float and a NumPy float64 are a binary64 number: Rocq's
      primitive [float], whose operations round, overflow to infinity and
      produce nan as IEEE 754 prescribes ([FloatAxioms] relates them to
      [SpecFloat]); the parameters [S], [K], [sgm], [r], [T] are taken as
      binary64 values (a Python int such as [100] converts exactly);
    - an [int] is a [Z];
    - Python's float [**] raises OverflowError where the result is out of
      range; NumPy's arithmetic does not raise, it answers inf or nan under
      a RuntimeWarning; a warning is not an exception and leaves no trace in
      the model;
    - what NumPy and the C library contribute is a parameter ([Platform]):
      [np.exp] and the C library's [pow], whose binary64 values no standard
      fixes; the order in which [np.add.reduce] adds the elements of an
      array; and the array sizes NumPy refuses to create;
    - NumPy's global generator is threaded explicitly ([RandomState]): the
      stream of standard normal draws it will produce, and how many of them
      have been consumed; [standard_normal(n)] fills its array with the next
      [n] draws of that stream, the ones [n] calls of [standard_normal()]
      would return. *)

From Stdlib Require Import Floats ZArith List Lia Bool Setoid.
From Stdlib Require Uint63.
Import ListNotations.

Set Warnings "-inexact-float".

Open Scope float_scope.

(** ** Exceptions and results *)

Inductive exception : Type :=
| OverflowError
| ValueError
| MemoryError.

Inductive result (A : Type) : Type :=
| Ok (a : A)
| Raise (e : exception).

Arguments Ok {A} a.
Arguments Raise {A} e.

Definition bind {A B : Type} (x : result A) (k : A -> result B) : result B :=
  match x with
  | Ok a => k a
  | Raise e => Raise e
  end.

Notation "x <- e ;; k" := (bind e (fun x => k))
  (at level 61, e at next level, right associativity).

(** ** Floats *)

(** A bool used as a number. *)
Definition float_of_bool (b : bool) : float := if b then 1 else 0.

(** An int as the nearest binary64 number. *)
Definition float_of_Z (n : Z) : float :=
  SF2Prim (binary_normalize prec emax n 0 false).

(** An int where a float is expected: OverflowError when it is out of the
    binary64 range. *)
Definition float_of_int (n : Z) : result float :=
  let y := float_of_Z n in
  if is_infinity y then Raise OverflowError else Ok y.

(** [a / n] for a float [a] and an int [n]. *)
Definition fdiv_int (a : float) (n : Z) : result float :=
  y <- float_of_int n ;; Ok (a / y).

(** ** What NumPy and the C library contribute *)

Record Platform : Type := mkPlatform {
  (** [np.exp] on a binary64 number *)
  np_exp : float -> float;
  (** the C library's [pow] *)
  libm_pow : float -> float -> float;
  (** [np.add.reduce] on an array of binary64 numbers *)
  np_add_reduce : list float -> float;
  (** the exception, if any, that creating an array of [n >= 0] elements
      raises *)
  array_refused : Z -> option exception
}.

(** [x ** 2] on a Python float, the way CPython's [float_pow] computes it
    at the exponent [2.0]: nan, an infinity and a zero are answered without
    the C library (nan, [inf] and [0.0]); a negative [x] is replaced by its
    opposite, the exponent being even; [1.0] is answered [1.0]; any other
    [x] goes to [pow], and a result that is infinite there is a range error,
    raised as OverflowError. *)
Definition float_pow_2 (P : Platform) (x : float) : result float :=
  if is_nan x then Ok x
  else if is_infinity x then Ok (abs x)
  else if x =? 0 then Ok 0
  else
    let iv := if x <? 0 then - x else x in
    if iv =? 1 then Ok 1
    else
      let ix := libm_pow P iv 2 in
      if is_infinity ix then Raise OverflowError else Ok ix.

(** ** The random generator *)

Record RandomState : Type := mkRandomState {
  draws : nat -> float;
  consumed : nat
}.

Definition advance (k : nat) (g : RandomState) : RandomState :=
  mkRandomState (draws g) (consumed g + k).

(** The next [k] draws of the generator. *)
Definition shocks (k : nat) (g : RandomState) : list float :=
  map (draws g) (seq (consumed g) k).

(** [np.random.standard_normal()] *)
Definition standard_normal (g : RandomState) : float * RandomState :=
  (draws g (consumed g), advance 1 g).

(** [np.random.standard_normal(n)]: a negative size is refused with
    ValueError, and so is a size the platform cannot allocate, with the
    exception the platform raises. *)
Definition standard_normal_n (P : Platform) (n : Z) (g : RandomState)
  : result (list float) * RandomState :=
  if (n <? 0)%Z then (Raise ValueError, g)
  else
    match array_refused P n with
    | Some e => (Raise e, g)
    | None => (Ok (shocks (Z.to_nat n) g), advance (Z.to_nat n) g)
    end.

(** ** Arrays: NumPy's broadcast operations on one-dimensional arrays *)

Definition array := list float.

Definition arr_scale (a : float) (v : array) : array := map (mul a) v.
Definition arr_shift (a : float) (v : array) : array := map (add a) v.
Definition arr_exp (P : Platform) (v : array) : array := map (np_exp P) v.
Definition arr_sub (v : array) (k : float) : array := map (fun x => x - k) v.
Definition arr_gt (v : array) (k : float) : list bool := map (fun x => k <? x) v.

Fixpoint arr_mask (v : array) (m : list bool) : array :=
  match v, m with
  | x :: v', b :: m' => x * float_of_bool b :: arr_mask v' m'
  | _, _ => []
  end.

(** [np.average(v)] without weights: the sum over the number of elements;
    on the empty array this is [0.0 / 0], nan. *)
Definition np_average (P : Platform) (v : array) : float :=
  np_add_reduce P v / float_of_Z (Z.of_nat (length v)).

(** ** The two pricing functions *)

(** The body of [for i in range(n)], run [i] more times. *)
Fixpoint for_range (P : Platform) (S K sgm r T : float) (i : nat)
    (payoff_sim : float) (g : RandomState) : result float * RandomState :=
  match i with
  | O => (Ok payoff_sim, g)
  | Datatypes.S i' =>
      let '(w, g) := standard_normal g in
      match float_pow_2 P sgm with
      | Raise e => (Raise e, g)
      | Ok sq =>
          let ST := S * np_exp P ((r - 0.5 * sq) * T + sgm * sqrt T * w) in
          let payoff := ST - K in
          let payoff := payoff * float_of_bool (0 <? payoff) in
          let payoff_sim := payoff_sim + payoff in
          for_range P S K sgm r T i' payoff_sim g
      end
  end.

Definition mcBScall_loop (P : Platform) (S K sgm r T : float) (n : Z)
    (g : RandomState) : result float * RandomState :=
  let payoff_sim := 0 in
  match for_range P S K sgm r T (Z.to_nat n) payoff_sim g with
  | (Raise e, g) => (Raise e, g)
  | (Ok payoff_sim, g) =>
      let price := fdiv_int (np_exp P (- r * T) * payoff_sim) n in
      (price, g)
  end.

Definition mcBScall_vect (P : Platform) (S K sgm r T : float) (n : Z)
    (g : RandomState) : result float * RandomState :=
  match standard_normal_n P n g with
  | (Raise e, g) => (Raise e, g)
  | (Ok w, g) =>
      match float_pow_2 P sgm with
      | Raise e => (Raise e, g)
      | Ok sq =>
          let ST :=
            arr_scale S
              (arr_exp P (arr_shift ((r - 0.5 * sq) * T)
                            (arr_scale (sgm * sqrt T) w))) in
          let payoff := arr_sub ST K in
          let payoff := arr_mask payoff (arr_gt payoff 0) in
          let price := np_exp P (- r * T) * np_average P payoff in
          (Ok price, g)
      end
  end.

(** ** The driver cells *)

(** Cells 2 and 4 of the notebook, which set the market parameters, call the
    two functions and print.  The globals of the session are a record; a
    global not assigned yet is [None].  The line
    [print(f'The call price is {callprice} based on {n} simulations')] is
    recorded by the two values it interpolates; the timing lines of
    [%%time] are not part of the model. *)
Module Notebook.

Record Globals : Type := mkGlobals {
  spot : float;
  strike : float;
  vol : float;
  r : float;
  T : float;
  n : Z;
  callprice : float;
  callprice2 : option float
}.

Record Printed : Type := mkPrinted {
  shown_price : float;
  shown_count : Z
}.

Definition cell_2 (P : Platform) (g : RandomState)
  : result (Globals * Printed) * RandomState :=
  let spot := 100 in
  let strike := 110 in
  let vol := 0.45 in
  let r := 0.02 in
  let T := 1.5 in
  let n := 500000%Z in
  match
    mcBScall_loop P spot strike vol r T n g
    return result (Globals * Printed) * RandomState
  with
  | (Ok callprice, g) =>
      (Ok (mkGlobals spot strike vol r T n callprice None,
           mkPrinted callprice n), g)
  | (Raise e, g) => (Raise e, g)
  end.

Definition cell_4 (P : Platform) (env : Globals) (g : RandomState)
  : result (Globals * Printed) * RandomState :=
  match
    mcBScall_vect P (spot env) (strike env) (vol env) (r env) (T env) (n env) g
    return result (Globals * Printed) * RandomState
  with
  | (Ok callprice2, g) =>
      (Ok (mkGlobals (spot env) (strike env) (vol env) (r env) (T env) (n env)
             (callprice env) (Some callprice2),
           mkPrinted (callprice env) (n env)), g)
  | (Raise e, g) => (Raise e, g)
  end.

End Notebook.

(** ** What the functions are measured against *)

(** Terminal value of geometric Brownian motion under shock [w], every
    operation a binary64 operation in the order of the source; [sq] is
    [sgm ** 2]. *)
Definition terminal_value (P : Platform) (S sgm sq r T w : float) : float :=
  S * np_exp P ((r - 0.5 * sq) * T + sgm * sqrt T * w).

(** The payoff of a call struck at [K], as the source clamps it:
    [payoff * (payoff > 0)]. *)
Definition call_payoff (K ST : float) : float :=
  let payoff := ST - K in
  payoff * float_of_bool (0 <? payoff).

(** The payoff of one path. *)
Definition path_payoff (P : Platform) (S K sgm sq r T w : float) : float :=
  call_payoff K (terminal_value P S sgm sq r T w).

(** The payoffs of the paths, in the order of the draws [ws]. *)
Definition payoffs (P : Platform) (S K sgm sq r T : float) (ws : list float)
  : list float :=
  map (path_payoff P S K sgm sq r T) ws.

(** The left-to-right sum from [0.0]: what [payoff_sim += payoff] builds. *)
Definition sum_in_turn (v : list float) : float := fold_left add v 0.

(** The discount factor. *)
Definition discount (P : Platform) (r T : float) : float := np_exp P (- r * T).

(** The price from the payoffs, the way [mcBScall_loop] ends:
    [(discount * sum) / n], and the way [mcBScall_vect] ends:
    [discount * (sum / n)]. *)
Definition loop_price (P : Platform) (r T : float) (n : Z) (v : list float)
  : result float :=
  fdiv_int (discount P r T * sum_in_turn v) n.

Definition vect_price (P : Platform) (r T : float) (v : list float) : float :=
  discount P r T * np_average P v.

(** ** Vocabulary of the statements *)

(** [x] is not below zero: a number at least zero, or nan. *)
Definition never_negative (x : float) : Prop := (x <? 0) = false.

(** [x] is infinite or nan. *)
Definition not_finite (x : float) : Prop := is_finite x = false.

(** [x] is [0.0] or [-0.0]. *)
Definition is_a_zero (x : float) : Prop := is_zero x = true.

(** A valid parameter set of the data model: positive [S], [K] and [T], a
    volatility at least zero, all of them and [r] finite, and at least one
    path. *)
Definition valid_parameters (S K sgm r T : float) (n : Z) : bool :=
  (0 <? S) && (0 <? K) && (0 <=? sgm) && (0 <? T) &&
  is_finite S && is_finite K && is_finite sgm && is_finite r &&
  is_finite T && (1 <=? n)%Z.

(** A market parameter the data model forbids: a spot, a strike or a
    maturity that is not positive, or a negative volatility. *)
Definition invalid_market (S K sgm T : float) : Prop :=
  (S <=? 0) = true \/ (K <=? 0) = true \/ (T <=? 0) = true \/
  (sgm <? 0) = true.




(** The generator whose every draw is the opposite of the draw of [g]. *)
Definition mirror (g : RandomState) : RandomState :=
  mkRandomState (fun i => - draws g i) (consumed g).


(** ** Assumptions on the platform, each named where a statement needs it *)

(** [np.exp] never returns a number below zero. *)
Definition exp_never_negative (P : Platform) : Prop :=
  forall x, never_negative (np_exp P x).


(** [np.exp(nan)] is nan. *)
Definition exp_of_nan (P : Platform) : Prop := np_exp P nan = nan.

(** The sum of a non-empty array of nan is nan. *)
Definition sum_of_nan (P : Platform) : Prop :=
  forall k, np_add_reduce P (repeat nan (Datatypes.S k)) = nan.

(** The sum of an array that holds an infinity or a nan is infinite or
    nan. *)
Definition sum_keeps_not_finite (P : Platform) : Prop :=
  forall v, Exists not_finite v -> not_finite (np_add_reduce P v).

(** The sum of numbers none of which is below zero is not below zero. *)
Definition sum_never_negative (P : Platform) : Prop :=
  forall v, Forall never_negative v -> never_negative (np_add_reduce P v).

(** ** The same vocabulary on the specification of binary64 *)

(** The sign of [x] is [s]; nan has no sign. *)
Definition signed_as (s : bool) (x : spec_float) : Prop :=
  match x with
  | S754_nan => True
  | S754_zero s' | S754_infinity s' | S754_finite s' _ _ => s' = s
  end.

Definition sf_never_negative (x : spec_float) : Prop :=
  match x with
  | S754_infinity true | S754_finite true _ _ => False
  | _ => True
  end.

Definition sf_not_finite (x : spec_float) : Prop :=
  match x with
  | S754_nan | S754_infinity _ => True
  | _ => False
  end.

Definition sf_is_zero (x : spec_float) : Prop :=
  match x with
  | S754_zero _ => True
  | _ => False
  end.

(** ** A platform and a generator for the examples *)

(** [np.exp] for the examples: overflow above [709.782712893384], zero
    below [-745.1332191019412], [exp(0) = 1] exactly, and the correctly
    rounded values at the few other arguments the examples reach.  The
    table answers nan elsewhere. *)
Definition sample_exp (x : float) : float :=
  if 709.782712893384 <? x then infinity
  else if x <? -745.1332191019412 then 0
  else if x =? 0 then 1
  else if x =? 1 then 0x1.5bf0a8b145769p+1
  else if x =? -1 then 0x1.78b56362cef38p-2
  else if x =? 0.5 then 0x1.a61298e1e069cp+0
  else if x =? -0.5 then 0x1.368b2fc6f960ap-1
  else if x =? -720 then 0x0.0000993b4dc95p-1022
  else nan.

(** [pow] for the examples, at the exponent [2.0]: the rounded square. *)
Definition sample_pow (x y : float) : float :=
  if y =? 2 then x * x else nan.

(** A platform that adds left to right from [0.0], grants arrays of up to
    [2^20] elements and, like NumPy, answers ValueError from [2^63] on. *)
Definition sample_platform : Platform :=
  mkPlatform sample_exp sample_pow sum_in_turn
    (fun n => if (2 ^ 63 <=? n)%Z then Some ValueError
              else if (2 ^ 20 <? n)%Z then Some MemoryError
              else None).

(** A generator whose draws are 0, 1, -1, 1, -1, ... *)
Definition sample_draws (i : nat) : float :=
  match i with
  | O => 0
  | Datatypes.S j => if Nat.even j then 1 else -1
  end.

Definition sample_state : RandomState := mkRandomState sample_draws 0.

(** ** Proof automation *)

(** Case analysis on the specification of a binary64 number. *)
Ltac by_cases_on x :=
  destruct (Prim2SF x) as [[]|[]| |[] ? ?]; simpl;
  try (split; intros ?); intros;
  repeat match goal with
         | H : _ \/ _ |- _ => destruct H
         | H : exists _, _ |- _ => destruct H
         | H : _ /\ _ |- _ => destruct H
         end;
  try discriminate; try contradiction; try reflexivity; try exact I.

(** * Properties *)

(** ** Signs and non-finite values on the specification of binary64 *)

Lemma binary_round_aux_signed (s : bool) (m e : Z) (l : location) :
  signed_as s (binary_round_aux prec emax s m e l).
Proof.
  unfold binary_round_aux.
  destruct (shr_fexp prec emax m e l) as [mrs e'].
  destruct (shr_fexp prec emax _ e' loc_Exact) as [mrs' e''].
  destruct (shr_m mrs'); simpl; trivial.
  destruct (Z.leb _ _); reflexivity.
Qed.

Lemma binary_round_aux_opp (s : bool) (m e : Z) (l : location) :
  binary_round_aux prec emax (negb s) m e l =
  SFopp (binary_round_aux prec emax s m e l).
Proof.
  unfold binary_round_aux.
  destruct (shr_fexp prec emax m e l) as [mrs e'].
  destruct (shr_fexp prec emax _ e' loc_Exact) as [mrs' e''].
  destruct (shr_m mrs'); simpl; trivial.
  destruct (Z.leb _ _); reflexivity.
Qed.

Lemma binary_round_signed (s : bool) (m : positive) (e : Z) :
  signed_as s (binary_round prec emax s m e).
Proof.
  unfold binary_round. destruct (shl_align _ _ _) as [mz ez].
  apply binary_round_aux_signed.
Qed.

Lemma binary_round_opp (s : bool) (m : positive) (e : Z) :
  binary_round prec emax (negb s) m e = SFopp (binary_round prec emax s m e).
Proof.
  unfold binary_round. destruct (shl_align _ _ _) as [mz ez].
  apply binary_round_aux_opp.
Qed.

Lemma signed_false_never_negative (x : spec_float) :
  signed_as false x -> sf_never_negative x.
Proof.
  destruct x as [s|s| |s m e]; simpl; trivial; intros ->; trivial.
Qed.

(** *** Sums, products and quotients of numbers not below zero *)

Lemma SFadd_never_negative (x y : spec_float) :
  sf_never_negative x -> sf_never_negative y ->
  sf_never_negative (SF64add x y).
Proof.
  destruct x as [sx|sx| |sx mx ex], y as [sy|sy| |sy my ey];
    try destruct sx; try destruct sy; simpl; trivial; try contradiction.
  intros _ _. apply signed_false_never_negative.
  unfold SF64add, SFadd, cond_Zopp, binary_normalize.
  cbn [Z.add]. apply binary_round_signed.
Qed.

Lemma SFmul_never_negative (x y : spec_float) :
  sf_never_negative x -> sf_never_negative y ->
  sf_never_negative (SF64mul x y).
Proof.
  destruct x as [sx|sx| |sx mx ex], y as [sy|sy| |sy my ey];
    try destruct sx; try destruct sy; simpl; trivial; try contradiction.
  intros _ _. apply signed_false_never_negative.
  apply (binary_round_aux_signed false).
Qed.

Lemma SFdiv_never_negative (x y : spec_float) :
  sf_never_negative x -> signed_as false y ->
  sf_never_negative (SF64div x y).
Proof.
  destruct x as [sx|sx| |sx mx ex], y as [sy|sy| |sy my ey];
    try destruct sx; simpl; trivial; try contradiction;
    try (intros _ ->; simpl; trivial).
  apply signed_false_never_negative.
  unfold SF64div, SFdiv.
  destruct (SFdiv_core_binary _ _ _ _ _ _) as [[mz ez] lz].
  apply (binary_round_aux_signed false).
Qed.

(** *** Infinite and nan operands *)

Lemma SFadd_not_finite (x y : spec_float) :
  sf_not_finite x \/ sf_not_finite y -> sf_not_finite (SF64add x y).
Proof.
  destruct x as [sx|sx| |sx mx ex], y as [sy|sy| |sy my ey];
    try destruct sx; try destruct sy; simpl; trivial;
    intros [H|H]; contradiction.
Qed.

Lemma SFmul_not_finite (x y : spec_float) :
  sf_not_finite x \/ sf_not_finite y -> sf_not_finite (SF64mul x y).
Proof.
  destruct x as [sx|sx| |sx mx ex], y as [sy|sy| |sy my ey];
    simpl; trivial; intros [H|H]; contradiction.
Qed.

Lemma SFdiv_not_finite (x y : spec_float) :
  sf_not_finite x -> sf_not_finite (SF64div x y).
Proof.
  destruct x as [sx|sx| |sx mx ex], y as [sy|sy| |sy my ey];
    simpl; trivial; contradiction.
Qed.

(** *** Opposites *)

Lemma SFopp_involutive (x : spec_float) : SFopp (SFopp x) = x.
Proof.
  destruct x as [s|s| |s m e]; simpl; now rewrite ?negb_involutive.
Qed.

Lemma SFmul_opp_l (x y : spec_float) :
  SF64mul (SFopp x) y = SFopp (SF64mul x y).
Proof.
  destruct x as [sx|sx| |sx mx ex], y as [sy|sy| |sy my ey];
    simpl; trivial;
    try (now destruct sx, sy).
  rewrite <- binary_round_aux_opp. now destruct sx, sy.
Qed.

Lemma SFmul_opp_r (x y : spec_float) :
  SF64mul x (SFopp y) = SFopp (SF64mul x y).
Proof.
  destruct x as [sx|sx| |sx mx ex], y as [sy|sy| |sy my ey];
    simpl; trivial;
    try (now destruct sx, sy).
  rewrite <- binary_round_aux_opp. now destruct sx, sy.
Qed.

(** ** Binary64 arithmetic, on the primitive floats *)

Lemma Prim2SF_zero : Prim2SF 0 = S754_zero false.
Proof. reflexivity. Qed.

Lemma Prim2SF_nan : Prim2SF nan = S754_nan.
Proof. reflexivity. Qed.

Lemma is_nan_spec (x : float) : is_nan x = true <-> Prim2SF x = S754_nan.
Proof.
  unfold is_nan. rewrite FloatAxioms.eqb_spec.
  destruct (Prim2SF x) as [s|s| |s m e]; unfold SFeqb, SFcompare.
  - destruct s; split; intros H; discriminate H.
  - destruct s; split; intros H; discriminate H.
  - split; reflexivity.
  - rewrite Z.compare_refl, Pos.compare_cont_refl.
    destruct s; split; intros H; discriminate H.
Qed.

Lemma nan_spec (x : float) : x = nan <-> Prim2SF x = S754_nan.
Proof.
  split; [now intros ->|].
  intros H. apply Prim2SF_inj. now rewrite H.
Qed.

Lemma is_infinity_spec (x : float) :
  is_infinity x = true <-> exists s, Prim2SF x = S754_infinity s.
Proof.
  unfold is_infinity. rewrite FloatAxioms.eqb_spec, abs_spec.
  change (Prim2SF infinity) with (S754_infinity false).
  by_cases_on x; eexists; reflexivity.
Qed.

Lemma is_finite_spec (x : float) :
  is_finite x = false <-> sf_not_finite (Prim2SF x).
Proof.
  unfold is_finite. rewrite negb_false_iff, orb_true_iff.
  rewrite is_nan_spec, is_infinity_spec.
  by_cases_on x; try (right; eexists; reflexivity); now left.
Qed.

Lemma never_negative_spec (x : float) :
  never_negative x <-> sf_never_negative (Prim2SF x).
Proof.
  unfold never_negative. rewrite FloatAxioms.ltb_spec, Prim2SF_zero.
  by_cases_on x.
Qed.

Lemma positive_spec (x : float) :
  (0 <? x) = true ->
  signed_as false (Prim2SF x) /\ ~ sf_is_zero (Prim2SF x) /\
  Prim2SF x <> S754_nan.
Proof.
  rewrite FloatAxioms.ltb_spec, Prim2SF_zero.
  by_cases_on x; repeat split; intros H'; try discriminate H'; exact H'.
Qed.

Lemma is_zero_spec (x : float) :
  is_a_zero x <-> sf_is_zero (Prim2SF x).
Proof.
  unfold is_a_zero, is_zero. rewrite FloatAxioms.eqb_spec.
  change (Prim2SF zero) with (S754_zero false).
  by_cases_on x.
Qed.

(** *** Numbers not below zero *)

Lemma add_never_negative (x y : float) :
  never_negative x -> never_negative y -> never_negative (x + y).
Proof.
  rewrite !never_negative_spec, add_spec. apply SFadd_never_negative.
Qed.

Lemma mul_never_negative (x y : float) :
  never_negative x -> never_negative y -> never_negative (x * y).
Proof.
  rewrite !never_negative_spec, mul_spec. apply SFmul_never_negative.
Qed.

Lemma div_never_negative (x y : float) :
  never_negative x -> signed_as false (Prim2SF y) -> never_negative (x / y).
Proof.
  rewrite !never_negative_spec, div_spec. apply SFdiv_never_negative.
Qed.

Lemma zero_never_negative : never_negative 0.
Proof. reflexivity. Qed.

Lemma signed_false_is_never_negative (x : float) :
  signed_as false (Prim2SF x) -> never_negative x.
Proof.
  rewrite never_negative_spec. apply signed_false_never_negative.
Qed.

(** The clamp [payoff * (payoff > 0)] never yields a number below zero. *)
Lemma call_payoff_never_negative (K ST : float) :
  never_negative (call_payoff K ST).
Proof.
  unfold call_payoff. cbv zeta.
  generalize (ST - K). intros p.
  rewrite never_negative_spec, mul_spec.
  destruct (0 <? p) eqn:Hp.
  - destruct (positive_spec p Hp) as (Hs & _ & _).
    apply SFmul_never_negative.
    + now apply signed_false_never_negative.
    + exact I.
  - change (Prim2SF (float_of_bool false)) with (S754_zero false).
    destruct (Prim2SF p) as [s|s| |s m e]; exact I.
Qed.

(** *** An int as a float *)

Lemma SF2Prim_signed_false (x : spec_float) :
  signed_as false x -> signed_as false (Prim2SF (SF2Prim x)).
Proof.
  destruct x as [s|s| |s m e]; simpl; try (intros ->; reflexivity);
    try reflexivity.
  intros ->. rewrite FloatLemmas.Z_ldexp_spec, of_uint63_spec.
  pose proof (Uint63.to_Z_bounded (Uint63Axioms.of_pos m)) as Hb.
  destruct (Uint63Axioms.to_Z _) as [|p|p]; simpl.
  - reflexivity.
  - pose proof (binary_round_signed false p 0) as H.
    destruct (binary_round prec emax false p 0) as [s'|s'| |s' m' e'];
      simpl in *; trivial.
    subst s'. apply binary_round_signed.
  - lia.
Qed.

(** *** Infinite and nan values *)

Lemma add_not_finite (x y : float) :
  not_finite x \/ not_finite y -> not_finite (x + y).
Proof.
  unfold not_finite. rewrite !is_finite_spec, add_spec.
  apply SFadd_not_finite.
Qed.

Lemma mul_not_finite (x y : float) :
  not_finite x \/ not_finite y -> not_finite (x * y).
Proof.
  unfold not_finite. rewrite !is_finite_spec, mul_spec.
  apply SFmul_not_finite.
Qed.

Lemma div_not_finite (x y : float) : not_finite x -> not_finite (x / y).
Proof.
  unfold not_finite. rewrite !is_finite_spec, div_spec.
  apply SFdiv_not_finite.
Qed.

Lemma add_nan_l (y : float) : nan + y = nan.
Proof.
  apply Prim2SF_inj. rewrite add_spec, Prim2SF_nan. reflexivity.
Qed.

Lemma add_nan_r (x : float) : x + nan = nan.
Proof.
  apply Prim2SF_inj. rewrite add_spec, Prim2SF_nan.
  destruct (Prim2SF x); reflexivity.
Qed.

Lemma mul_nan_l (y : float) : nan * y = nan.
Proof.
  apply Prim2SF_inj. rewrite mul_spec, Prim2SF_nan. reflexivity.
Qed.

Lemma mul_nan_r (x : float) : x * nan = nan.
Proof.
  apply Prim2SF_inj. rewrite mul_spec, Prim2SF_nan.
  destruct (Prim2SF x); reflexivity.
Qed.

Lemma sub_nan_l (y : float) : nan - y = nan.
Proof.
  apply Prim2SF_inj. rewrite sub_spec, Prim2SF_nan. reflexivity.
Qed.

Lemma div_nan_l (y : float) : nan / y = nan.
Proof.
  apply Prim2SF_inj. rewrite div_spec, Prim2SF_nan. reflexivity.
Qed.

(** The square root of a number below zero is nan. *)
Lemma sqrt_negative (x : float) : (x <? 0) = true -> sqrt x = nan.
Proof.
  rewrite FloatAxioms.ltb_spec, Prim2SF_zero. intros H.
  apply Prim2SF_inj. rewrite sqrt_spec, Prim2SF_nan.
  destruct (Prim2SF x) as [[]|[]| |[] m e]; try discriminate H; reflexivity.
Qed.

(** The clamp of nan is nan. *)
Lemma call_payoff_nan (K : float) : call_payoff K nan = nan.
Proof.
  unfold call_payoff. cbv zeta. rewrite sub_nan_l.
  change (0 <? nan) with false. apply mul_nan_l.
Qed.

Lemma never_negative_cases (x : float) :
  never_negative x -> (0 <=? x) = true \/ x = nan.
Proof.
  rewrite never_negative_spec, FloatAxioms.leb_spec, Prim2SF_zero, nan_spec.
  destruct (Prim2SF x) as [[]|[]| |[] m e]; simpl; intros H;
    try contradiction; auto.
Qed.

(** *** Zeros *)


(** A zero times anything is a zero or nan. *)
Lemma mul_zero_l (z y : float) :
  is_a_zero z -> is_a_zero (z * y) \/ z * y = nan.
Proof.
  rewrite !is_zero_spec, nan_spec, mul_spec.
  destruct (Prim2SF z) as [sz|sz| |sz mz ez]; try contradiction.
  intros _. destruct (Prim2SF y) as [sy|sy| |sy my ey]; simpl; auto.
Qed.

Lemma mul_zero_r (x z : float) :
  is_a_zero z -> is_a_zero (x * z) \/ x * z = nan.
Proof.
  rewrite !is_zero_spec, nan_spec, mul_spec.
  destruct (Prim2SF z) as [sz|sz| |sz mz ez]; try contradiction.
  intros _. destruct (Prim2SF x) as [sx|sx| |sx mx ex]; simpl; auto.
Qed.



(** A zero or nan over anything is a zero or nan. *)
Lemma div_zero_l (x y : float) :
  is_a_zero x \/ x = nan -> is_a_zero (x / y) \/ x / y = nan.
Proof.
  intros [Hx| ->]; [|right; apply div_nan_l].
  revert Hx. rewrite !is_zero_spec, nan_spec, div_spec.
  destruct (Prim2SF x) as [sx|sx| |sx mx ex]; try contradiction.
  intros _. destruct (Prim2SF y) as [sy|sy| |sy my ey]; simpl; auto.
Qed.

(** A zero or nan over a zero is nan. *)
Lemma div_zero_zero (x : float) :
  is_a_zero x \/ x = nan -> x / 0 = nan.
Proof.
  intros [Hx| ->]; [|apply div_nan_l].
  revert Hx. rewrite is_zero_spec. intros Hx.
  apply Prim2SF_inj. rewrite div_spec, Prim2SF_zero, Prim2SF_nan.
  destruct (Prim2SF x) as [sx|sx| |sx mx ex]; try contradiction.
  reflexivity.
Qed.

(** A finite number times a zero is a zero; an infinity or nan times a zero
    is nan. *)
Lemma mul_finite_zero (x z : float) :
  is_finite x = true -> is_a_zero z -> is_a_zero (x * z).
Proof.
  intros Hx Hz.
  assert (Hf : ~ sf_not_finite (Prim2SF x)).
  { rewrite <- is_finite_spec. now rewrite Hx. }
  revert Hz. rewrite !is_zero_spec, mul_spec.
  destruct (Prim2SF z) as [sz|sz| |sz mz ez]; try contradiction.
  intros _. destruct (Prim2SF x) as [sx|sx| |sx mx ex]; simpl in *; auto.
Qed.

Lemma mul_not_finite_zero (x z : float) :
  not_finite x -> is_a_zero z -> x * z = nan.
Proof.
  unfold not_finite. rewrite is_finite_spec, is_zero_spec. intros Hx Hz.
  apply Prim2SF_inj. rewrite mul_spec, Prim2SF_nan.
  destruct (Prim2SF z) as [sz|sz| |sz mz ez]; try contradiction.
  destruct (Prim2SF x) as [sx|sx| |sx mx ex]; try contradiction; reflexivity.
Qed.

(** A zero over a number below zero is a zero. *)
Lemma div_zero_negative (z y : float) :
  is_a_zero z -> (y <? 0) = true -> is_a_zero (z / y).
Proof.
  rewrite !is_zero_spec, div_spec, FloatAxioms.ltb_spec, Prim2SF_zero.
  destruct (Prim2SF z) as [sz|sz| |sz mz ez]; try contradiction.
  intros _.
  destruct (Prim2SF y) as [[]|[]| |[] my ey]; simpl; intros H;
    try discriminate H; exact I.
Qed.

(** *** Opposites *)

Lemma opp_involutive (x : float) : - - x = x.
Proof.
  apply Prim2SF_inj. rewrite !opp_spec. apply SFopp_involutive.
Qed.

Lemma mul_opp_opp (x y : float) : (- x) * (- y) = x * y.
Proof.
  apply Prim2SF_inj.
  rewrite !mul_spec, !opp_spec, SFmul_opp_l, SFmul_opp_r.
  apply SFopp_involutive.
Qed.

Lemma mul_opp_l (x y : float) : (- x) * y = - (x * y).
Proof.
  apply Prim2SF_inj. rewrite opp_spec, !mul_spec, opp_spec.
  apply SFmul_opp_l.
Qed.

Lemma is_nan_opp (x : float) : is_nan (- x) = is_nan x.
Proof.
  unfold is_nan. rewrite !FloatAxioms.eqb_spec, opp_spec.
  destruct (Prim2SF x) as [[]|[]| |[] m e]; try reflexivity;
    unfold SFopp, SFeqb, SFcompare;
    now rewrite ?Z.compare_refl, ?Pos.compare_cont_refl.
Qed.

Lemma abs_opp (x : float) : abs (- x) = abs x.
Proof.
  apply Prim2SF_inj. rewrite !abs_spec, opp_spec.
  destruct (Prim2SF x); reflexivity.
Qed.

Lemma is_infinity_opp (x : float) : is_infinity (- x) = is_infinity x.
Proof. unfold is_infinity. now rewrite abs_opp. Qed.

Lemma eqb_zero_opp (x : float) : (- x =? 0) = (x =? 0).
Proof.
  rewrite !FloatAxioms.eqb_spec, opp_spec, Prim2SF_zero.
  destruct (Prim2SF x) as [[]|[]| |[] m e]; reflexivity.
Qed.

(** The number [float_pow] hands to [pow] is the same for [x] and [- x]. *)
Lemma pow_operand_opp (x : float) :
  is_nan x = false -> (x =? 0) = false ->
  (if - x <? 0 then - - x else - x) = (if x <? 0 then - x else x).
Proof.
  rewrite opp_involutive.
  intros Hn Hz.
  assert (Hn' : Prim2SF x <> S754_nan).
  { rewrite <- is_nan_spec, Hn. discriminate. }
  revert Hz.
  rewrite !FloatAxioms.ltb_spec, FloatAxioms.eqb_spec, opp_spec, Prim2SF_zero.
  destruct (Prim2SF x) as [[]|[]| |[] m e]; simpl; intros Hz;
    try discriminate Hz; try reflexivity.
  now elim Hn'.
Qed.

(** ** The generator *)

Lemma advance_0 (g : RandomState) : advance 0 g = g.
Proof.
  destruct g as [d c]. unfold advance. cbn [draws consumed].
  now rewrite Nat.add_0_r.
Qed.

Lemma advance_advance (i j : nat) (g : RandomState) :
  advance j (advance i g) = advance (i + j) g.
Proof.
  unfold advance. cbn [draws consumed]. now rewrite Nat.add_assoc.
Qed.

Lemma shocks_0 (g : RandomState) : shocks 0 g = [].
Proof. reflexivity. Qed.

Lemma shocks_S (k : nat) (g : RandomState) :
  shocks (Datatypes.S k) g = draws g (consumed g) :: shocks k (advance 1 g).
Proof.
  unfold shocks, advance. cbn [draws consumed seq map].
  now rewrite Nat.add_1_r.
Qed.


Lemma shocks_length (k : nat) (g : RandomState) : length (shocks k g) = k.
Proof. unfold shocks. now rewrite length_map, length_seq. Qed.

Lemma shocks_mirror (k : nat) (g : RandomState) :
  shocks k (mirror g) = map opp (shocks k g).
Proof. unfold shocks, mirror. cbn [draws consumed]. now rewrite map_map. Qed.


Lemma payoffs_length (P : Platform) (S K sgm sq r T : float)
    (ws : list float) :
  length (payoffs P S K sgm sq r T ws) = length ws.
Proof. apply length_map. Qed.

(** ** The loop *)

(** While [sgm ** 2] has a value, [i] turns of the loop add the payoffs of
    the next [i] draws to the running total, in the order of the draws. *)
Lemma for_range_ok (P : Platform) (S K sgm r T sq : float) :
  float_pow_2 P sgm = Ok sq ->
  forall (i : nat) (acc : float) (g : RandomState),
    for_range P S K sgm r T i acc g =
    (Ok (fold_left add (payoffs P S K sgm sq r T (shocks i g)) acc),
     advance i g).
Proof.
  intros Hsq. induction i as [|i IH]; intros acc g.
  - cbn [for_range]. now rewrite shocks_0, advance_0.
  - cbn [for_range]. unfold standard_normal. rewrite Hsq.
    rewrite IH, shocks_S, advance_advance.
    reflexivity.
Qed.

(** When [sgm ** 2] raises, the first turn raises, one draw taken. *)
Lemma for_range_raise (P : Platform) (S K sgm r T : float) (e : exception) :
  float_pow_2 P sgm = Raise e ->
  forall (i : nat) (acc : float) (g : RandomState),
    for_range P S K sgm r T (Datatypes.S i) acc g = (Raise e, advance 1 g).
Proof.
  intros He i acc g. cbn [for_range]. unfold standard_normal.
  now rewrite He.
Qed.


Lemma loop_ok (P : Platform) (S K sgm r T sq : float) (n : Z)
    (g : RandomState) :
  float_pow_2 P sgm = Ok sq ->
  mcBScall_loop P S K sgm r T n g =
  (loop_price P r T n (payoffs P S K sgm sq r T (shocks (Z.to_nat n) g)),
   advance (Z.to_nat n) g).
Proof.
  intros Hsq. unfold mcBScall_loop. cbv zeta.
  now rewrite (for_range_ok P S K sgm r T sq Hsq).
Qed.

Lemma loop_raise (P : Platform) (S K sgm r T : float) (n : Z)
    (g : RandomState) (e : exception) :
  float_pow_2 P sgm = Raise e -> (1 <= n)%Z ->
  mcBScall_loop P S K sgm r T n g = (Raise e, advance 1 g).
Proof.
  intros He Hn. unfold mcBScall_loop. cbv zeta.
  destruct (Z.to_nat n) as [|k] eqn:Hk; [lia|].
  now rewrite (for_range_raise P S K sgm r T e He).
Qed.

Lemma loop_without_turns (P : Platform) (S K sgm r T : float) (n : Z)
    (g : RandomState) :
  (n <= 0)%Z ->
  mcBScall_loop P S K sgm r T n g = (fdiv_int (discount P r T * 0) n, g).
Proof.
  intros Hn. unfold mcBScall_loop. cbv zeta.
  replace (Z.to_nat n) with O by lia. reflexivity.
Qed.

Lemma fdiv_int_ok (a nf : float) (n : Z) :
  float_of_int n = Ok nf -> fdiv_int a n = Ok (a / nf).
Proof. intros H. unfold fdiv_int. now rewrite H. Qed.

Lemma float_of_int_ok (n : Z) (nf : float) :
  float_of_int n = Ok nf -> nf = float_of_Z n.
Proof.
  unfold float_of_int. cbv zeta.
  destruct (is_infinity (float_of_Z n)); [discriminate|].
  now intros [= <-].
Qed.

(** ** The array expression *)

Lemma arr_mask_gt (v : array) :
  arr_mask v (arr_gt v 0) = map (fun x => x * float_of_bool (0 <? x)) v.
Proof.
  induction v as [|x v IH]; [reflexivity|].
  cbn [arr_gt map arr_mask]. f_equal. exact IH.
Qed.

(** The array [payoff] of [mcBScall_vect] holds the payoffs of the paths,
    in the order of the draws. *)
Lemma vect_payoffs (P : Platform) (S K sgm sq r T : float) (w : array) :
  let ST :=
    arr_scale S
      (arr_exp P (arr_shift ((r - 0.5 * sq) * T)
                    (arr_scale (sgm * sqrt T) w))) in
  let payoff := arr_sub ST K in
  arr_mask payoff (arr_gt payoff 0) = payoffs P S K sgm sq r T w.
Proof.
  cbv zeta. rewrite arr_mask_gt.
  unfold arr_sub, arr_scale, arr_exp, arr_shift, payoffs.
  rewrite !map_map. reflexivity.
Qed.

Lemma vect_ok (P : Platform) (S K sgm r T sq : float) (n : Z)
    (g : RandomState) :
  (0 <= n)%Z -> array_refused P n = None -> float_pow_2 P sgm = Ok sq ->
  mcBScall_vect P S K sgm r T n g =
  (Ok (vect_price P r T (payoffs P S K sgm sq r T (shocks (Z.to_nat n) g))),
   advance (Z.to_nat n) g).
Proof.
  intros Hn Hr Hsq. unfold mcBScall_vect, standard_normal_n.
  replace (n <? 0)%Z with false by (symmetry; apply Z.ltb_ge; lia).
  rewrite Hr, Hsq. cbv zeta.
  now rewrite (vect_payoffs P S K sgm sq r T).
Qed.

Lemma vect_raise (P : Platform) (S K sgm r T : float) (n : Z)
    (g : RandomState) (e : exception) :
  (0 <= n)%Z -> array_refused P n = None -> float_pow_2 P sgm = Raise e ->
  mcBScall_vect P S K sgm r T n g = (Raise e, advance (Z.to_nat n) g).
Proof.
  intros Hn Hr He. unfold mcBScall_vect, standard_normal_n.
  replace (n <? 0)%Z with false by (symmetry; apply Z.ltb_ge; lia).
  now rewrite Hr, He.
Qed.

Lemma vect_negative (P : Platform) (S K sgm r T : float) (n : Z)
    (g : RandomState) :
  (n < 0)%Z -> mcBScall_vect P S K sgm r T n g = (Raise ValueError, g).
Proof.
  intros Hn. unfold mcBScall_vect, standard_normal_n.
  now replace (n <? 0)%Z with true by (symmetry; apply Z.ltb_lt; lia).
Qed.

Lemma vect_refused (P : Platform) (S K sgm r T : float) (n : Z)
    (g : RandomState) (e : exception) :
  (0 <= n)%Z -> array_refused P n = Some e ->
  mcBScall_vect P S K sgm r T n g = (Raise e, g).
Proof.
  intros Hn Hr. unfold mcBScall_vect, standard_normal_n.
  replace (n <? 0)%Z with false by (symmetry; apply Z.ltb_ge; lia).
  now rewrite Hr.
Qed.

(** ** Runs that return *)

Lemma float_of_Z_signed (n : Z) :
  (0 <= n)%Z -> signed_as false (Prim2SF (float_of_Z n)).
Proof.
  intros Hn. unfold float_of_Z. apply SF2Prim_signed_false.
  unfold binary_normalize. destruct n as [|p|p]; [reflexivity| |lia].
  apply binary_round_signed.
Qed.

(** Both functions, when [sgm ** 2] has the value [sq] and [n] converts to
    the float [nf]: the loop returns [(discount * sum) / nf], the sum built
    left to right from [0.0]; the array version returns
    [discount * (sum / nf)], the sum built by [np.add.reduce]; either takes
    [n] draws. *)
Lemma runs_ok (P : Platform) (S K sgm r T sq nf : float) (n : Z)
    (g : RandomState) :
  float_pow_2 P sgm = Ok sq -> (0 <= n)%Z -> float_of_int n = Ok nf ->
  mcBScall_loop P S K sgm r T n g =
    (Ok (discount P r T *
         sum_in_turn (payoffs P S K sgm sq r T (shocks (Z.to_nat n) g)) / nf),
     advance (Z.to_nat n) g) /\
  (array_refused P n = None ->
   mcBScall_vect P S K sgm r T n g =
     (Ok (discount P r T *
          (np_add_reduce P
             (payoffs P S K sgm sq r T (shocks (Z.to_nat n) g)) / nf)),
      advance (Z.to_nat n) g)).
Proof.
  intros Hsq Hn Hnf. split.
  - rewrite (loop_ok P S K sgm r T sq n g Hsq). unfold loop_price.
    now rewrite (fdiv_int_ok _ nf n Hnf).
  - intros Hr. rewrite (vect_ok P S K sgm r T sq n g Hn Hr Hsq).
    unfold vect_price, np_average.
    rewrite payoffs_length, shocks_length, Z2Nat.id by assumption.
    now rewrite (float_of_int_ok n nf Hnf).
Qed.

(** The only exception [sgm ** 2] raises is OverflowError. *)
Lemma float_pow_2_raises (P : Platform) (x : float) (e : exception) :
  float_pow_2 P x = Raise e -> e = OverflowError.
Proof.
  unfold float_pow_2. cbv zeta.
  repeat match goal with
         | |- context [if ?c then _ else _] => destruct c
         end; intros H; try discriminate H.
  now injection H as <-.
Qed.

(** ** A volatility of zero *)





Lemma map_constant {A B : Type} (f : A -> B) (c : B) (l : list A) :
  Forall (fun a => f a = c) l -> map f l = repeat c (length l).
Proof.
  induction 1 as [|a l Ha _ IH]; [reflexivity|].
  cbn [map length repeat]. now rewrite Ha, IH.
Qed.


(** ** Sums *)

Lemma fold_add_never_negative (v : list float) (acc : float) :
  never_negative acc -> Forall never_negative v ->
  never_negative (fold_left add v acc).
Proof.
  intros Hacc Hv. revert acc Hacc.
  induction Hv as [|x v Hx _ IH]; intros acc Hacc; [exact Hacc|].
  cbn [fold_left]. apply IH. now apply add_never_negative.
Qed.

Lemma fold_add_not_finite (v : list float) (acc : float) :
  not_finite acc \/ Exists not_finite v ->
  not_finite (fold_left add v acc).
Proof.
  revert acc. induction v as [|x v IH]; intros acc [H|H].
  - exact H.
  - inversion H.
  - cbn [fold_left]. apply IH. left. apply add_not_finite. now left.
  - cbn [fold_left]. apply IH. inversion H as [? ? Hx|? ? Hv]; subst.
    + left. apply add_not_finite. now right.
    + now right.
Qed.

Lemma fold_add_nan (k : nat) : fold_left add (repeat nan k) nan = nan.
Proof.
  induction k as [|k IH]; [reflexivity|].
  cbn [repeat fold_left]. now rewrite add_nan_l.
Qed.

Lemma sum_in_turn_nan (k : nat) :
  sum_in_turn (repeat nan (Datatypes.S k)) = nan.
Proof.
  unfold sum_in_turn. cbn [repeat fold_left].
  rewrite add_nan_r. apply fold_add_nan.
Qed.

Lemma payoffs_never_negative (P : Platform) (S K sgm sq r T : float)
    (ws : list float) :
  Forall never_negative (payoffs P S K sgm sq r T ws).
Proof.
  unfold payoffs. apply Forall_forall. intros p Hp.
  apply in_map_iff in Hp. destruct Hp as (w & <- & _).
  apply call_payoff_never_negative.
Qed.

(** ** A maturity below zero *)

Lemma path_payoff_negative_maturity (P : Platform)
    (S K sgm sq r T w : float) :
  (T <? 0) = true -> exp_of_nan P -> path_payoff P S K sgm sq r T w = nan.
Proof.
  intros HT HP. unfold path_payoff, terminal_value.
  rewrite (sqrt_negative T HT), mul_nan_r, mul_nan_l, add_nan_r.
  unfold exp_of_nan in HP. rewrite HP, mul_nan_r.
  apply call_payoff_nan.
Qed.

(** ** A volatility and its opposite *)

Lemma float_pow_2_opp (P : Platform) (x : float) :
  float_pow_2 P (- x) = float_pow_2 P x.
Proof.
  unfold float_pow_2. cbv zeta.
  rewrite is_nan_opp, is_infinity_opp, abs_opp, eqb_zero_opp.
  destruct (is_nan x) eqn:Hn.
  - apply is_nan_spec, nan_spec in Hn. subst x. reflexivity.
  - destruct (is_infinity x); [reflexivity|].
    destruct (x =? 0) eqn:Hz; [reflexivity|].
    now rewrite (pow_operand_opp x Hn Hz).
Qed.

Lemma path_payoff_mirror (P : Platform) (S K sgm sq r T w : float) :
  path_payoff P S K (- sgm) sq r T (- w) = path_payoff P S K sgm sq r T w.
Proof.
  unfold path_payoff, terminal_value.
  now rewrite mul_opp_l, mul_opp_opp.
Qed.

Lemma payoffs_mirror (P : Platform) (S K sgm sq r T : float) (k : nat)
    (g : RandomState) :
  payoffs P S K (- sgm) sq r T (shocks k (mirror g)) =
  payoffs P S K sgm sq r T (shocks k g).
Proof.
  unfold payoffs. rewrite shocks_mirror, map_map.
  apply map_ext. intros w. apply path_payoff_mirror.
Qed.

(** ** The platform and the generator of the examples *)

Lemma sample_exp_never_negative : exp_never_negative sample_platform.
Proof.
  intros x. unfold never_negative. cbn [np_exp sample_platform].
  unfold sample_exp.
  repeat match goal with
         | |- context [if ?c then _ else _] => destruct c
         end; reflexivity.
Qed.


Lemma sample_exp_of_nan : exp_of_nan sample_platform.
Proof. reflexivity. Qed.

Lemma sample_sum_of_nan : sum_of_nan sample_platform.
Proof. intros k. apply sum_in_turn_nan. Qed.

Lemma sample_sum_keeps_not_finite : sum_keeps_not_finite sample_platform.
Proof.
  intros v Hv. cbn [np_add_reduce sample_platform]. unfold sum_in_turn.
  apply fold_add_not_finite. now right.
Qed.

Lemma sample_sum_never_negative : sum_never_negative sample_platform.
Proof.
  intros v Hv. cbn [np_add_reduce sample_platform]. unfold sum_in_turn.
  now apply fold_add_never_negative.
Qed.


(** * The claims *)

(** ** C1: the price formula *)

(** C1, as stated, fails: a volatility of [1e200] is a valid parameter,
    yet [sgm ** 2] raises OverflowError, in the loop after one draw and in
    the array version after all three, and no price is returned; and at the
    valid rate [r = 1000] the exponential overflows, the discount factor
    underflows to zero and the price returned is nan. *)
Lemma price_formula_fails_on_overflow :
  valid_parameters 100 100 1e200 0.02 1 3 = true /\
  mcBScall_loop sample_platform 100 100 1e200 0.02 1 3 sample_state =
    (Raise OverflowError, advance 1 sample_state) /\
  mcBScall_vect sample_platform 100 100 1e200 0.02 1 3 sample_state =
    (Raise OverflowError, advance 3 sample_state) /\
  valid_parameters 100 100 0 1000 1 1 = true /\
  mcBScall_loop sample_platform 100 100 0 1000 1 1 sample_state =
    (Ok nan, advance 1 sample_state) /\
  mcBScall_vect sample_platform 100 100 0 1000 1 1 sample_state =
    (Ok nan, advance 1 sample_state).
Proof. repeat split; vm_compute; reflexivity. Qed.

(** C1, as the code has it.  For every parameter set on which [sgm ** 2] has a value
    [sq], every path count [n >= 1] (one that converts to a float, [nf]) and
    every state of the generator, both functions take the next [n] draws
    [w_i] and return the discounted mean of the payoffs
    [(ST_i - K) * (ST_i - K > 0)],
    [ST_i = S * exp((r - 0.5 * sq) * T + sgm * sqrt(T) * w_i)], every
    operation a binary64 operation in the order of the source:
    [mcBScall_loop] as [(exp(-r*T) * sum) / n] with the sum built left to
    right from [0.0], [mcBScall_vect] (when NumPy creates the array) as
    [exp(-r*T) * (sum / n)] with the sum of [np.add.reduce].  The value is
    inf or nan where the binary64 operations give that. *)
Theorem mcBScall_price_formula (P : Platform) (S K sgm r T sq nf : float)
    (n : Z) (g : RandomState) :
  float_pow_2 P sgm = Ok sq -> (1 <= n)%Z -> float_of_int n = Ok nf ->
  mcBScall_loop P S K sgm r T n g =
    (Ok (discount P r T *
         sum_in_turn (payoffs P S K sgm sq r T (shocks (Z.to_nat n) g)) / nf),
     advance (Z.to_nat n) g) /\
  (array_refused P n = None ->
   mcBScall_vect P S K sgm r T n g =
     (Ok (discount P r T *
          (np_add_reduce P
             (payoffs P S K sgm sq r T (shocks (Z.to_nat n) g)) / nf)),
      advance (Z.to_nat n) g)).
Proof. intros Hsq Hn Hnf. apply runs_ok; (assumption || lia). Qed.

Lemma mcBScall_price_formula_witness :
  mcBScall_loop sample_platform 100 100 1 0.5 1 3 sample_state =
    (Ok 34.739687032916486, advance 3 sample_state) /\
  mcBScall_vect sample_platform 100 100 1 0.5 1 3 sample_state =
    (Ok 34.739687032916486, advance 3 sample_state).
Proof.
  destruct (mcBScall_price_formula sample_platform 100 100 1 0.5 1 1 3 3
              sample_state eq_refl ltac:(lia) eq_refl) as [HL HV].
  split.
  - rewrite HL. vm_compute. reflexivity.
  - rewrite (HV eq_refl). vm_compute. reflexivity.
Defined.

(** ** C2: the loop against the array version *)




(** ** C3: a volatility of zero *)




(** ** C4: invalid parameters *)

(** C4, as stated, fails: with the strike [K = -10] neither function
    raises; each takes its draw and returns a price. *)
Lemma negative_strike_not_rejected :
  mcBScall_loop sample_platform 100 (-10) 1 0.5 1 1 sample_state =
    (Ok 66.718372568389682, advance 1 sample_state) /\
  mcBScall_vect sample_platform 100 (-10) 1 0.5 1 1 sample_state =
    (Ok 66.718372568389682, advance 1 sample_state).
Proof. split; vm_compute; reflexivity. Qed.

(** C4, as the code has it.  The functions test none of their parameters and know no
    InvalidParameterError.  For a spot, a strike or a maturity that is not
    positive, or a negative volatility (in particular [K = -10]), with
    [n >= 1] and [sgm ** 2] in range, both functions take the [n] draws and
    return a price, raising nothing ([mcBScall_vect] when NumPy creates the
    array). *)
Theorem no_parameter_validation (P : Platform) (S K sgm r T sq nf : float)
    (n : Z) (g : RandomState) :
  invalid_market S K sgm T ->
  float_pow_2 P sgm = Ok sq -> (1 <= n)%Z -> float_of_int n = Ok nf ->
  (exists price,
     mcBScall_loop P S K sgm r T n g = (Ok price, advance (Z.to_nat n) g)) /\
  (array_refused P n = None ->
   exists price,
     mcBScall_vect P S K sgm r T n g = (Ok price, advance (Z.to_nat n) g)).
Proof.
  intros _ Hsq Hn Hnf.
  destruct (runs_ok P S K sgm r T sq nf n g Hsq ltac:(lia) Hnf) as [HL HV].
  split.
  - eexists. exact HL.
  - intros Hr. eexists. exact (HV Hr).
Qed.

Lemma no_parameter_validation_witness :
  (exists price,
     mcBScall_loop sample_platform 100 (-10) 1 0.5 1 1 sample_state =
       (Ok price, advance 1 sample_state)) /\
  (exists price,
     mcBScall_vect sample_platform 100 (-10) 1 0.5 1 1 sample_state =
       (Ok price, advance 1 sample_state)).
Proof.
  destruct (no_parameter_validation sample_platform 100 (-10) 1 0.5 1 1 1 1
              sample_state (or_intror (or_introl eq_refl)) eq_refl
              ltac:(lia) eq_refl) as [HL HV].
  split; [exact HL | exact (HV eq_refl)].
Defined.

(** ** C5: accumulating by parts *)



(** ** C6: two runs *)




(** ** C7: values that are not finite *)

(** C7, as stated, fails: on valid parameters with [r = 720] the
    exponential overflows, the payoff of the path is inf, and both functions
    return inf as the price; nothing is raised and nothing discarded. *)
Lemma overflow_returned_not_raised :
  valid_parameters 100 100 0 720 1 1 = true /\
  payoffs sample_platform 100 100 0 0 720 1 (shocks 1 sample_state) =
    [infinity] /\
  mcBScall_loop sample_platform 100 100 0 720 1 1 sample_state =
    (Ok infinity, advance 1 sample_state) /\
  mcBScall_vect sample_platform 100 100 0 720 1 1 sample_state =
    (Ok infinity, advance 1 sample_state).
Proof. repeat split; vm_compute; reflexivity. Qed.

(** C7, as the code has it.  The functions check no value for finiteness and know no
    NumericInstabilityError.  When the payoff of some path is inf or nan
    (overflow in [exp], say), the run goes on through all [n] draws and
    returns a price that is itself inf or nan; nothing is raised (for
    [mcBScall_vect]: when NumPy creates the array, and given that the sum of
    an array holding an inf or a nan is inf or nan). *)
Theorem non_finite_propagates (P : Platform) (S K sgm r T sq nf : float)
    (n : Z) (g : RandomState) :
  float_pow_2 P sgm = Ok sq -> (1 <= n)%Z -> float_of_int n = Ok nf ->
  Exists not_finite (payoffs P S K sgm sq r T (shocks (Z.to_nat n) g)) ->
  (exists price,
     mcBScall_loop P S K sgm r T n g = (Ok price, advance (Z.to_nat n) g) /\
     not_finite price) /\
  (array_refused P n = None -> sum_keeps_not_finite P ->
   exists price,
     mcBScall_vect P S K sgm r T n g = (Ok price, advance (Z.to_nat n) g) /\
     not_finite price).
Proof.
  intros Hsq Hn Hnf Hex.
  destruct (runs_ok P S K sgm r T sq nf n g Hsq ltac:(lia) Hnf) as [HL HV].
  split.
  - eexists. split; [exact HL|].
    apply div_not_finite, mul_not_finite. right.
    apply fold_add_not_finite. now right.
  - intros Hr Hsum. eexists. split; [exact (HV Hr)|].
    apply mul_not_finite. right. apply div_not_finite. now apply Hsum.
Qed.

Lemma non_finite_propagates_witness :
  (exists price,
     mcBScall_loop sample_platform 100 100 0 720 1 1 sample_state =
       (Ok price, advance 1 sample_state) /\ not_finite price) /\
  (exists price,
     mcBScall_vect sample_platform 100 100 0 720 1 1 sample_state =
       (Ok price, advance 1 sample_state) /\ not_finite price).
Proof.
  destruct (non_finite_propagates sample_platform 100 100 0 720 1 0 1 1
              sample_state eq_refl ltac:(lia) eq_refl
              (Exists_cons_hd not_finite infinity [] eq_refl)) as [HL HV].
  split; [exact HL | exact (HV eq_refl sample_sum_keeps_not_finite)].
Defined.

(** ** C8: the sign of the price *)

(** C8, as stated, fails: on valid parameters with [r = 1000] both
    functions return nan, and [nan >= 0] is false. *)
Lemma price_nan_on_valid_input :
  valid_parameters 100 100 1 1000 1 1 = true /\
  mcBScall_loop sample_platform 100 100 1 1000 1 1 sample_state =
    (Ok nan, advance 1 sample_state) /\
  mcBScall_vect sample_platform 100 100 1 1000 1 1 sample_state =
    (Ok nan, advance 1 sample_state) /\
  (0 <=? nan) = false.
Proof. repeat split; vm_compute; reflexivity. Qed.

(** C8, as the code has it.  For every parameter set on which [sgm ** 2] has a value
    and every [n >= 1], the price returned is never below zero: it is a
    number at least zero (inf included) or it is nan.  Each payoff is
    clamped by [payoff * (payoff > 0)], so no payoff and no sum of payoffs is
    below zero, and [exp] returns nothing below zero (for [mcBScall_vect]:
    when NumPy creates the array, and given that [np.add.reduce] of such
    payoffs is not below zero). *)
Theorem price_never_negative (P : Platform) (S K sgm r T sq nf : float)
    (n : Z) (g : RandomState) :
  exp_never_negative P ->
  float_pow_2 P sgm = Ok sq -> (1 <= n)%Z -> float_of_int n = Ok nf ->
  (exists price,
     mcBScall_loop P S K sgm r T n g = (Ok price, advance (Z.to_nat n) g) /\
     ((0 <=? price) = true \/ price = nan)) /\
  (array_refused P n = None -> sum_never_negative P ->
   exists price,
     mcBScall_vect P S K sgm r T n g = (Ok price, advance (Z.to_nat n) g) /\
     ((0 <=? price) = true \/ price = nan)).
Proof.
  intros HP Hsq Hn Hnf.
  destruct (runs_ok P S K sgm r T sq nf n g Hsq ltac:(lia) Hnf) as [HL HV].
  assert (Hs : signed_as false (Prim2SF nf)).
  { rewrite (float_of_int_ok n nf Hnf). apply float_of_Z_signed. lia. }
  split.
  - eexists. split; [exact HL|].
    apply never_negative_cases, div_never_negative; [|exact Hs].
    apply mul_never_negative; [apply HP|].
    apply fold_add_never_negative;
      [apply zero_never_negative | apply payoffs_never_negative].
  - intros Hr Hsum. eexists. split; [exact (HV Hr)|].
    apply never_negative_cases, mul_never_negative; [apply HP|].
    apply div_never_negative; [|exact Hs].
    apply Hsum, payoffs_never_negative.
Qed.

Lemma price_never_negative_witness :
  (exists price,
     mcBScall_loop sample_platform 100 100 1 0.5 1 3 sample_state =
       (Ok price, advance 3 sample_state) /\
     ((0 <=? price) = true \/ price = nan)) /\
  (exists price,
     mcBScall_vect sample_platform 100 100 1 0.5 1 3 sample_state =
       (Ok price, advance 3 sample_state) /\
     ((0 <=? price) = true \/ price = nan)).
Proof.
  destruct (price_never_negative sample_platform 100 100 1 0.5 1 1 3 3
              sample_state sample_exp_never_negative eq_refl ltac:(lia)
              eq_refl) as [HL HV].
  split; [exact HL | exact (HV eq_refl sample_sum_never_negative)].
Defined.

(** ** C9: the strike

    The order of the prices of two strikes is lost where the price is nan:
    at [r = 1000] the price is nan for the strike 100 and for the strike
    110, and [nan >= nan] is false.  For runs that return numbers the
    order rests on the monotonicity of binary64 rounding, which this
    development does not establish. *)
Lemma strike_order_lost_at_nan :
  valid_parameters 100 100 1 1000 1 1 = true /\
  valid_parameters 100 110 1 1000 1 1 = true /\
  fst (mcBScall_loop sample_platform 100 100 1 1000 1 1 sample_state) =
    Ok nan /\
  fst (mcBScall_loop sample_platform 100 110 1 1000 1 1 sample_state) =
    Ok nan /\
  fst (mcBScall_vect sample_platform 100 100 1 1000 1 1 sample_state) =
    Ok nan /\
  fst (mcBScall_vect sample_platform 100 110 1 1000 1 1 sample_state) =
    Ok nan /\
  (nan <=? nan) = false.
Proof. repeat split; vm_compute; reflexivity. Qed.

(** ** C10: a path count that is not positive *)

(** C10, as stated, fails: with [n = 0] the division [0.0 / 0] does not
    fail, the loop returns nan; and with [n = -3] and [r = -1000] the
    discount factor overflows and the loop returns nan, not 0. *)
Lemma zero_count_returns_nan :
  mcBScall_loop sample_platform 100 100 1 0.5 1 0 sample_state =
    (Ok nan, sample_state) /\
  mcBScall_loop sample_platform 100 100 0 (-1000) 1 (-3) sample_state =
    (Ok nan, sample_state).
Proof. split; vm_compute; reflexivity. Qed.

(** C10, as the code has it.  For every [n <= 0] the body of the loop never runs: no
    draw is taken, [sgm ** 2] is not evaluated, the payoff sum stays [0.0],
    and the function returns [exp(-r*T) * 0.0 / n] without raising.  That
    value is nan when [n = 0] (the division [0.0 / 0] does not fail) and
    when [exp(-r*T)] is inf or nan; it is a zero when [n], as a float, is
    below zero and [exp(-r*T)] is finite. *)
Theorem loop_nonpositive_count (P : Platform) (S K sgm r T nf : float)
    (n : Z) (g : RandomState) :
  (n <= 0)%Z -> float_of_int n = Ok nf ->
  mcBScall_loop P S K sgm r T n g = (Ok (discount P r T * 0 / nf), g) /\
  (n = 0%Z -> discount P r T * 0 / nf = nan) /\
  (not_finite (discount P r T) -> discount P r T * 0 / nf = nan) /\
  ((nf <? 0) = true -> is_finite (discount P r T) = true ->
   is_a_zero (discount P r T * 0 / nf)).
Proof.
  intros Hn Hnf.
  assert (H0 : is_a_zero 0) by reflexivity.
  split; [|split; [|split]].
  - rewrite (loop_without_turns P S K sgm r T n g Hn).
    now rewrite (fdiv_int_ok _ nf n Hnf).
  - intros ->. injection Hnf as <-.
    change (float_of_Z 0) with 0.
    apply div_zero_zero, mul_zero_r, H0.
  - intros Hd. rewrite (mul_not_finite_zero _ 0 Hd H0). apply div_nan_l.
  - intros Hneg Hd. apply div_zero_negative; [|exact Hneg].
    now apply mul_finite_zero.
Qed.

Lemma loop_nonpositive_count_witness :
  mcBScall_loop sample_platform 100 100 1e200 0.5 1 (-3) sample_state =
    (Ok (-0), sample_state) /\
  mcBScall_loop sample_platform 100 100 1e200 0.5 1 0 sample_state =
    (Ok nan, sample_state).
Proof.
  split.
  - etransitivity;
      [exact (proj1 (loop_nonpositive_count sample_platform 100 100 1e200
                       0.5 1 (-3) (-3) sample_state ltac:(lia) eq_refl))|].
    vm_compute. reflexivity.
  - etransitivity;
      [exact (proj1 (loop_nonpositive_count sample_platform 100 100 1e200
                       0.5 1 0 0 sample_state ltac:(lia) eq_refl))|].
    vm_compute. reflexivity.
Defined.

(** * Further properties *)

(** ** What a run takes from the generator *)

(** X1. Whatever the parameters, a run leaves the generator further along
    the same stream: [mcBScall_loop] by [max(n, 0)] draws, or by one draw
    when [sgm ** 2] raises on the first turn; [mcBScall_vect] by [n] draws,
    also when [sgm ** 2] raises, and by none when [standard_normal] refuses
    the size. *)
Theorem generator_advanced_by_count (P : Platform) (S K sgm r T : float)
    (n : Z) (g : RandomState) :
  snd (mcBScall_loop P S K sgm r T n g) =
    advance
      (match float_pow_2 P sgm with
       | Ok _ => Z.to_nat n
       | Raise _ => Nat.min 1 (Z.to_nat n)
       end) g /\
  snd (mcBScall_vect P S K sgm r T n g) =
    (if (n <? 0)%Z then g
     else match array_refused P n with
          | Some _ => g
          | None => advance (Z.to_nat n) g
          end).
Proof.
  split.
  - destruct (float_pow_2 P sgm) as [sq|e] eqn:Hsq.
    + now rewrite (loop_ok P S K sgm r T sq n g Hsq).
    + destruct (Z_le_gt_dec n 0) as [Hn|Hn].
      * rewrite (loop_without_turns P S K sgm r T n g Hn).
        replace (Z.to_nat n) with O by lia.
        cbn [snd Nat.min]. now rewrite advance_0.
      * rewrite (loop_raise P S K sgm r T n g e Hsq) by lia.
        now replace (Nat.min 1 (Z.to_nat n)) with 1%nat by lia.
  - destruct (n <? 0)%Z eqn:Hn.
    + apply Z.ltb_lt in Hn. now rewrite vect_negative.
    + apply Z.ltb_ge in Hn.
      destruct (array_refused P n) as [e|] eqn:Hr.
      * now rewrite (vect_refused P S K sgm r T n g e Hn Hr).
      * destruct (float_pow_2 P sgm) as [sq|e] eqn:Hsq.
        -- now rewrite (vect_ok P S K sgm r T sq n g Hn Hr Hsq).
        -- now rewrite (vect_raise P S K sgm r T n g e Hn Hr Hsq).
Qed.

(** ** A volatility out of range *)

(** X15. When [sgm ** 2] raises, the exception is OverflowError and both
    functions raise it for every [n >= 1]: the loop on its first turn, one
    draw taken, the array version after it has taken all [n] draws. *)
Theorem volatility_overflow_raises (P : Platform) (S K sgm r T : float)
    (n : Z) (g : RandomState) (e : exception) :
  float_pow_2 P sgm = Raise e -> (1 <= n)%Z ->
  e = OverflowError /\
  mcBScall_loop P S K sgm r T n g = (Raise e, advance 1 g) /\
  (array_refused P n = None ->
   mcBScall_vect P S K sgm r T n g = (Raise e, advance (Z.to_nat n) g)).
Proof.
  intros He Hn. split; [|split].
  - exact (float_pow_2_raises P sgm e He).
  - now apply loop_raise.
  - intros Hr. apply vect_raise; (assumption || lia).
Qed.

Lemma volatility_overflow_raises_witness :
  mcBScall_loop sample_platform 100 100 1e200 0.02 1 3 sample_state =
    (Raise OverflowError, advance 1 sample_state) /\
  mcBScall_vect sample_platform 100 100 1e200 0.02 1 3 sample_state =
    (Raise OverflowError, advance 3 sample_state).
Proof.
  destruct (volatility_overflow_raises sample_platform 100 100 1e200 0.02 1
              3 sample_state OverflowError eq_refl ltac:(lia))
    as (_ & HL & HV).
  split; [exact HL | exact (HV eq_refl)].
Defined.

(** ** A negative path count in the array version *)

(** X16. [mcBScall_vect] with [n < 0] raises ValueError, the refusal of
    [np.random.standard_normal], before any draw is taken and whatever the
    other parameters. *)
Theorem vect_rejects_negative_count (P : Platform) (S K sgm r T : float)
    (n : Z) (g : RandomState) :
  (n < 0)%Z -> mcBScall_vect P S K sgm r T n g = (Raise ValueError, g).
Proof. apply vect_negative. Qed.

Lemma vect_rejects_negative_count_witness :
  mcBScall_vect sample_platform 100 100 1 0.5 1 (-3) sample_state =
    (Raise ValueError, sample_state).
Proof.
  exact (vect_rejects_negative_count sample_platform 100 100 1 0.5 1 (-3)
           sample_state ltac:(lia)).
Defined.

(** ** No path in the array version *)

(** X17. [mcBScall_vect] with [n = 0] does not fail on its empty array:
    [np.average] of the empty array is [0.0 / 0], nan, and the price
    returned is nan, no draw taken (given that [sgm ** 2] has a value, that
    NumPy creates the empty array and that the sum of the empty array is
    [0.0]). *)
Theorem vect_zero_count_gives_nan (P : Platform) (S K sgm r T sq : float)
    (g : RandomState) :
  float_pow_2 P sgm = Ok sq -> array_refused P 0 = None ->
  np_add_reduce P [] = 0 ->
  mcBScall_vect P S K sgm r T 0 g = (Ok nan, g).
Proof.
  intros Hsq Hr Hsum.
  rewrite (vect_ok P S K sgm r T sq 0 g ltac:(lia) Hr Hsq).
  change (Z.to_nat 0) with O. rewrite advance_0, shocks_0.
  unfold vect_price, np_average, payoffs. cbn [map length].
  rewrite Hsum. change (float_of_Z (Z.of_nat 0)) with 0.
  change (0 / 0) with nan. now rewrite mul_nan_r.
Qed.

Lemma vect_zero_count_gives_nan_witness :
  mcBScall_vect sample_platform 100 100 1 0.5 1 0 sample_state =
    (Ok nan, sample_state).
Proof.
  exact (vect_zero_count_gives_nan sample_platform 100 100 1 0.5 1 1
           sample_state eq_refl eq_refl eq_refl).
Defined.

(** ** A maturity below zero *)

(** X6. A maturity below zero is not rejected: [np.sqrt(T)] is nan, the nan
    reaches every payoff, and for every [n >= 1] both functions return nan
    after taking their [n] draws (given that [np.exp(nan)] is nan and, for
    [mcBScall_vect], that NumPy creates the array and the sum of an array of
    nan is nan). *)
Theorem negative_maturity_gives_nan (P : Platform)
    (S K sgm r T sq nf : float) (n : Z) (g : RandomState) :
  (T <? 0) = true -> exp_of_nan P ->
  float_pow_2 P sgm = Ok sq -> (1 <= n)%Z -> float_of_int n = Ok nf ->
  mcBScall_loop P S K sgm r T n g = (Ok nan, advance (Z.to_nat n) g) /\
  (array_refused P n = None -> sum_of_nan P ->
   mcBScall_vect P S K sgm r T n g = (Ok nan, advance (Z.to_nat n) g)).
Proof.
  intros HT HP Hsq Hn Hnf.
  destruct (runs_ok P S K sgm r T sq nf n g Hsq ltac:(lia) Hnf) as [HL HV].
  assert (Hps : payoffs P S K sgm sq r T (shocks (Z.to_nat n) g) =
                repeat nan (Z.to_nat n)).
  { unfold payoffs. rewrite (map_constant _ nan).
    - now rewrite shocks_length.
    - apply Forall_forall. intros w _.
      now apply path_payoff_negative_maturity. }
  rewrite Hps in HL, HV.
  destruct (Z.to_nat n) as [|k] eqn:Hk; [lia|].
  split.
  - rewrite HL, sum_in_turn_nan, mul_nan_r, div_nan_l. reflexivity.
  - intros Hr Hsum. rewrite (HV Hr), Hsum, div_nan_l, mul_nan_r.
    reflexivity.
Qed.

Lemma negative_maturity_gives_nan_witness :
  mcBScall_loop sample_platform 100 100 1 0.5 (-1) 3 sample_state =
    (Ok nan, advance 3 sample_state) /\
  mcBScall_vect sample_platform 100 100 1 0.5 (-1) 3 sample_state =
    (Ok nan, advance 3 sample_state).
Proof.
  destruct (negative_maturity_gives_nan sample_platform 100 100 1 0.5 (-1)
              1 3 3 sample_state eq_refl sample_exp_of_nan eq_refl
              ltac:(lia) eq_refl) as [HL HV].
  split; [exact HL | exact (HV eq_refl sample_sum_of_nan)].
Defined.

(** ** A negative volatility *)

(** X12. A negative volatility is not rejected: for every parameter set and
    every [n], either function run with [- sgm] on the generator whose
    draws are the opposites returns what it returns with [sgm] on the
    original generator. *)
Theorem negative_volatility_mirrors (P : Platform) (S K sgm r T : float)
    (n : Z) (g : RandomState) :
  fst (mcBScall_loop P S K (- sgm) r T n (mirror g)) =
    fst (mcBScall_loop P S K sgm r T n g) /\
  fst (mcBScall_vect P S K (- sgm) r T n (mirror g)) =
    fst (mcBScall_vect P S K sgm r T n g).
Proof.
  pose proof (float_pow_2_opp P sgm) as Hopp.
  destruct (float_pow_2 P sgm) as [sq|e] eqn:Hsq.
  - split.
    + rewrite (loop_ok P S K (- sgm) r T sq n _ Hopp).
      rewrite (loop_ok P S K sgm r T sq n _ Hsq).
      cbn [fst]. now rewrite payoffs_mirror.
    + destruct (Z_lt_ge_dec n 0) as [Hn|Hn].
      * now rewrite !vect_negative.
      * destruct (array_refused P n) as [e|] eqn:Hr.
        -- rewrite !(vect_refused P S K _ r T n _ e) by (assumption || lia).
           reflexivity.
        -- rewrite (vect_ok P S K (- sgm) r T sq n _ ltac:(lia) Hr Hopp).
           rewrite (vect_ok P S K sgm r T sq n _ ltac:(lia) Hr Hsq).
           cbn [fst]. now rewrite payoffs_mirror.
  - split.
    + destruct (Z_le_gt_dec n 0) as [Hn|Hn].
      * now rewrite !loop_without_turns.
      * rewrite !(loop_raise P S K _ r T n _ e) by (assumption || lia).
        reflexivity.
    + destruct (Z_lt_ge_dec n 0) as [Hn|Hn].
      * now rewrite !vect_negative.
      * destruct (array_refused P n) as [e'|] eqn:Hr.
        -- rewrite !(vect_refused P S K _ r T n _ e') by (assumption || lia).
           reflexivity.
        -- rewrite !(vect_raise P S K _ r T n _ e) by (assumption || lia).
           reflexivity.
Qed.

(** ** The driver cells *)

Lemma float_pow_2_ordinary (P : Platform) (x : float) :
  is_nan x = false -> is_infinity x = false -> (x =? 0) = false ->
  (x <? 0) = false -> (x =? 1) = false ->
  is_infinity (libm_pow P x 2) = false ->
  float_pow_2 P x = Ok (libm_pow P x 2).
Proof.
  intros H1 H2 H3 H4 H5 H6. unfold float_pow_2. cbv zeta.
  now rewrite H1, H2, H3, H4, H5, H6.
Qed.

(** X13. For every generator state, cells 2 and 4 run without raising and
    print the same price: the line printed by cell 4 interpolates
    [callprice], the price [mcBScall_loop] returned in cell 2 from the first
    500000 draws, while the price [mcBScall_vect] computes from the next
    500000 draws is stored in [callprice2] and shown nowhere.  (On a
    platform whose [pow(0.45, 2.0)] is in range and that creates an array of
    500000 numbers.) *)
Theorem cell_4_prints_loop_price (P : Platform) (g : RandomState) :
  is_infinity (libm_pow P 0.45 2) = false ->
  array_refused P 500000 = None ->
  exists (p p2 : float) (env env' : Notebook.Globals),
    Notebook.cell_2 P g =
      (Ok (env, Notebook.mkPrinted p 500000),
       advance (Z.to_nat 500000) g) /\
    Notebook.cell_4 P env (advance (Z.to_nat 500000) g) =
      (Ok (env', Notebook.mkPrinted p 500000),
       advance (Z.to_nat 500000) (advance (Z.to_nat 500000) g)) /\
    p = discount P 0.02 1.5 *
        sum_in_turn
          (payoffs P 100 110 0.45 (libm_pow P 0.45 2) 0.02 1.5
             (shocks (Z.to_nat 500000) g)) / 500000 /\
    Notebook.callprice env' = p /\
    Notebook.callprice2 env' = Some p2 /\
    p2 = discount P 0.02 1.5 *
         (np_add_reduce P
            (payoffs P 100 110 0.45 (libm_pow P 0.45 2) 0.02 1.5
               (shocks (Z.to_nat 500000) (advance (Z.to_nat 500000) g)))
          / 500000).
Proof.
  intros Hpow Hr.
  assert (Hsq : float_pow_2 P 0.45 = Ok (libm_pow P 0.45 2))
    by (apply float_pow_2_ordinary; (reflexivity || assumption)).
  assert (Hnf : float_of_int 500000 = Ok 500000) by reflexivity.
  assert (H : forall g', _) by
    (intros g';
     exact (runs_ok P 100 110 0.45 0.02 1.5 _ _ 500000 g' Hsq
              ltac:(lia) Hnf)).
  do 4 eexists.
  split.
  { unfold Notebook.cell_2. cbv zeta. rewrite (proj1 (H g)). reflexivity. }
  split.
  { unfold Notebook.cell_4.
    cbn [Notebook.spot Notebook.strike Notebook.vol Notebook.r Notebook.T
         Notebook.n Notebook.callprice].
    rewrite (proj2 (H _) Hr). reflexivity. }
  repeat split.
Qed.

Lemma cell_4_prints_loop_price_witness :
  exists (p p2 : float) (env env' : Notebook.Globals),
    Notebook.cell_2 sample_platform sample_state =
      (Ok (env, Notebook.mkPrinted p 500000),
       advance (Z.to_nat 500000) sample_state) /\
    Notebook.cell_4 sample_platform env
      (advance (Z.to_nat 500000) sample_state) =
      (Ok (env', Notebook.mkPrinted p 500000),
       advance (Z.to_nat 500000)
         (advance (Z.to_nat 500000) sample_state)) /\
    Notebook.callprice env' = p /\
    Notebook.callprice2 env' = Some p2.
Proof.
  destruct (cell_4_prints_loop_price sample_platform sample_state
              eq_refl eq_refl)
    as (p & p2 & env & env' & H2 & H4 & _ & Hc & Hc2 & _).
  exists p, p2, env, env'. auto.
Defined.
